(** * esphomelib fan component: [FanState] and its automation actions

    A shallow embedding of [src/esphomelib/fan/fan_state.h].

    The header declares the class [FanState] (its member functions are
    defined out of line, in a translation unit that is not part of the
    header) and defines, inline, the three action templates
    [TurnOnAction<T>], [TurnOffAction<T>] and [ToggleAction<T>] together
    with the factory members [FanState::make_*_action].

    - A [FanState] object lives in a heap ([gmap loc FanState.t]); the
      actions hold a raw pointer [state_] to it, modelled as a location.
      Dereferencing a location that holds no object has no defined result
      ([None]).
    - Code is written in a state-and-error monad [M] over a [World]: the
      heap plus the trace of observable events (setter calls, observer
      invocations, hand-overs to the next action of a chain).
    - Observers are opaque [std::function<void()>] values: invoking one is
      an event that records which observer ran and what it could read from
      the fan at that moment.  Observers that call back into the fan are
      outside the model (the specification excludes reentrant mutation). *)

From Stdlib Require Import String List Bool.
From stdpp Require Import base option list gmap strings.
Import ListNotations.

Set Implicit Arguments.
Set Default Proof Using "Type".

(** ** Data model *)

(** [enum FanSpeed], in declaration order ([FAN_SPEED_OFF = 0]). *)
Inductive FanSpeed : Type :=
| FAN_SPEED_OFF
| FAN_SPEED_LOW
| FAN_SPEED_MEDIUM
| FAN_SPEED_HIGH.

(** The enumerators' integral values. *)
Definition FanSpeed_value (s : FanSpeed) : nat :=
  match s with
  | FAN_SPEED_OFF => 0
  | FAN_SPEED_LOW => 1
  | FAN_SPEED_MEDIUM => 2
  | FAN_SPEED_HIGH => 3
  end.

#[global] Instance FanSpeed_eq_dec : EqDecision FanSpeed.
Proof. solve_decision. Defined.

(** Addresses of [FanState] objects. *)
Definition loc : Type := nat.

(** An observer ([std::function<void()>]); opaque, known by its handle. *)
Definition Callback : Type := nat.

Module FanTraits.
(** Modelled from the spec: [fan_traits.h] is not part of the sources.
    The capability descriptor records which of oscillation and speed
    control a fan supports. *)
Record t : Type := mk {
  oscillation_ : bool;
  speed_ : bool
}.
End FanTraits.

Module CallbackManager.
(** Modelled from the spec: [CallbackManager<void()>] comes from
    [helpers.h], which is not part of the sources.  It is an ordered
    collection of callbacks; [add] appends, nothing is ever removed, and
    [call] invokes every callback in registration order. *)
Definition t : Type := list Callback.

Definition empty : t := [].

Definition add (cb : Callback) (m : t) : t := m ++ [cb].
End CallbackManager.

Module FanState.
(** The data members of [class FanState], plus the name held by its base
    class [Nameable]. *)
Record t : Type := mk {
  name_ : string;
  state_ : bool;
  oscillating_ : bool;
  speed_ : FanSpeed;
  traits_ : FanTraits.t;
  state_callback_ : CallbackManager.t
}.

Definition with_state (b : bool) (fs : t) : t :=
  mk (name_ fs) b (oscillating_ fs) (speed_ fs) (traits_ fs) (state_callback_ fs).

Definition with_oscillating (b : bool) (fs : t) : t :=
  mk (name_ fs) (state_ fs) b (speed_ fs) (traits_ fs) (state_callback_ fs).

Definition with_speed (s : FanSpeed) (fs : t) : t :=
  mk (name_ fs) (state_ fs) (oscillating_ fs) s (traits_ fs) (state_callback_ fs).

Definition with_traits (tr : FanTraits.t) (fs : t) : t :=
  mk (name_ fs) (state_ fs) (oscillating_ fs) (speed_ fs) tr (state_callback_ fs).

Definition with_state_callback (cbs : CallbackManager.t) (fs : t) : t :=
  mk (name_ fs) (state_ fs) (oscillating_ fs) (speed_ fs) (traits_ fs) cbs.
End FanState.

(** What an observer reads when it re-reads the fan's attributes. *)
Record Snapshot : Type := mkSnapshot {
  seen_state : bool;
  seen_oscillating : bool;
  seen_speed : FanSpeed
}.

Definition snapshot (fs : FanState.t) : Snapshot :=
  mkSnapshot (FanState.state_ fs) (FanState.oscillating_ fs) (FanState.speed_ fs).

(** Observable events, for a context type [T]. *)
Inductive Event (T : Type) : Type :=
| EvSetState (fan : loc) (state : bool)
| EvSetOscillating (fan : loc) (oscillating : bool)
| EvSetSpeed (fan : loc) (speed : FanSpeed)
| EvCallback (fan : loc) (cb : Callback) (seen : Snapshot)
| EvPlayNext (x : T).

Arguments EvSetState {T} fan state.
Arguments EvSetOscillating {T} fan oscillating.
Arguments EvSetSpeed {T} fan speed.
Arguments EvCallback {T} fan cb seen.
Arguments EvPlayNext {T} x.

Record World (T : Type) : Type := mkWorld {
  heap : gmap loc FanState.t;
  trace : list (Event T)
}.

Arguments mkWorld {T} heap trace.
Arguments heap {T} w.
Arguments trace {T} w.

(** ** The state-and-error monad *)

Definition M (T A : Type) : Type := World T -> option (A * World T).

Definition ret {T A} (a : A) : M T A := fun w => Some (a, w).

Definition bind {T A B} (c : M T A) (k : A -> M T B) : M T B :=
  fun w =>
    match c w with
    | Some (a, w') => k a w'
    | None => None
    end.

Declare Scope fan_scope.
Delimit Scope fan_scope with fan.
Notation "'let*' x ':=' c 'in' k" := (bind c (fun x => k))
  (at level 10, x name, c at level 100, k at level 200) : fan_scope.
Notation "c ;; k" := (bind c (fun _ => k))
  (at level 100, k at level 200, right associativity) : fan_scope.
Open Scope fan_scope.

Definition fail {T A} : M T A := fun _ => None.

(** Lifts a partial value: no value, no result. *)
Definition lift_option {T A} (o : option A) : M T A :=
  match o with
  | Some a => ret a
  | None => fail
  end.

Definition emit {T} (e : Event T) : M T unit :=
  fun w => Some (tt, mkWorld (heap w) (trace w ++ [e])).

(** [*l] as an rvalue. *)
Definition load {T} (l : loc) : M T FanState.t :=
  fun w =>
    match heap w !! l with
    | Some fs => Some (fs, w)
    | None => None
    end.

(** [*l = fs], on an object that exists. *)
Definition store {T} (l : loc) (fs : FanState.t) : M T unit :=
  fun w =>
    match heap w !! l with
    | Some _ => Some (tt, mkWorld (<[l := fs]> (heap w)) (trace w))
    | None => None
    end.

(** Placement of a newly constructed object at [l]. *)
Definition alloc {T} (l : loc) (fs : FanState.t) : M T unit :=
  fun w => Some (tt, mkWorld (<[l := fs]> (heap w)) (trace w)).

(** The final world of a run, when it has one. *)
Definition exec {T A} (c : M T A) (w : World T) : option (World T) :=
  snd <$> c w.

(** ** [CallbackManager<void()>::call] *)

(** Modelled from the spec: the fan-out of [CallbackManager::call], which
    [helpers.h] (not part of the sources) defines.  Every registered
    callback is invoked, in registration order; [invoke] is what one
    invocation does. *)
Fixpoint CallbackManager_call {T} (invoke : Callback -> M T unit)
    (cbs : CallbackManager.t) : M T unit :=
  match cbs with
  | [] => ret tt
  | cb :: rest => invoke cb ;; CallbackManager_call invoke rest
  end.

(** ** Member functions of [FanState] *)

Section FanStateMethods.
Context {T : Type}.

(** Invoking an observer of the fan at [this]: the observer runs and can
    read the attributes the fan has at that moment. *)
Definition invoke_observer (this : loc) (cb : Callback) : M T unit :=
  let* fs := load this in
  emit (EvCallback this cb (snapshot fs)).

(** [this->state_callback_.call()]. *)
Definition notify (this : loc) : M T unit :=
  let* fs := load this in
  CallbackManager_call (invoke_observer this) (FanState.state_callback_ fs).

(** The default member initializers of [class FanState]:
    [state_{false}], [oscillating_{false}], [speed_{FAN_SPEED_HIGH}],
    [traits_{}], [state_callback_{}].  What a default-constructed
    [FanTraits] holds is decided in [fan_traits.h]; it is taken as
    [default_traits]. *)
Definition default_members (default_traits : FanTraits.t) (name : string)
  : FanState.t :=
  FanState.mk name false false FAN_SPEED_HIGH default_traits
    CallbackManager.empty.

(** Modelled from the spec: the constructor [FanState(const std::string &)]
    is defined out of line.  It hands the name to the base [Nameable] and
    leaves every data member to its default member initializer. *)
Definition FanState_new (default_traits : FanTraits.t) (name : string)
  : FanState.t :=
  default_members default_traits name.

(** [new (this) FanState(name)]. *)
Definition FanState_construct (default_traits : FanTraits.t) (this : loc)
    (name : string) : M T unit :=
  alloc this (FanState_new default_traits name).

(** Modelled from the spec: [add_on_state_change_callback] is defined out
    of line.  It registers the observer; observers are appended and never
    removed. *)
Definition add_on_state_change_callback (this : loc) (cb : Callback)
  : M T unit :=
  let* fs := load this in
  store this
    (FanState.with_state_callback
       (CallbackManager.add cb (FanState.state_callback_ fs)) fs).

(** Modelled from the spec: the accessors and setters below are defined
    out of line.  A getter reads the attribute.  A setter unconditionally
    stores the value and then fires the change notification, which
    invokes every registered observer before the setter returns. *)
Definition get_state (this : loc) : M T bool :=
  let* fs := load this in ret (FanState.state_ fs).

Definition set_state (this : loc) (state : bool) : M T unit :=
  emit (EvSetState this state) ;;
  let* fs := load this in
  store this (FanState.with_state state fs) ;;
  notify this.

Definition is_oscillating (this : loc) : M T bool :=
  let* fs := load this in ret (FanState.oscillating_ fs).

Definition set_oscillating (this : loc) (oscillating : bool) : M T unit :=
  emit (EvSetOscillating this oscillating) ;;
  let* fs := load this in
  store this (FanState.with_oscillating oscillating fs) ;;
  notify this.

Definition get_speed (this : loc) : M T FanSpeed :=
  let* fs := load this in ret (FanState.speed_ fs).

Definition set_speed (this : loc) (speed : FanSpeed) : M T unit :=
  emit (EvSetSpeed this speed) ;;
  let* fs := load this in
  store this (FanState.with_speed speed fs) ;;
  notify this.

(** Modelled from the spec: the capability descriptor is metadata; its
    setter does not fire the change notification. *)
Definition get_traits (this : loc) : M T FanTraits.t :=
  let* fs := load this in ret (FanState.traits_ fs).

Definition set_traits (this : loc) (traits : FanTraits.t) : M T unit :=
  let* fs := load this in
  store this (FanState.with_traits traits fs).

(** Modelled from the spec: the tokens the textual setter recognizes are
    the names of the four speed levels, written as the spec writes
    ["medium"]; every other string is unrecognized. *)
Definition FanSpeed_of_token (speed : string) : option FanSpeed :=
  if String.eqb speed "off" then Some FAN_SPEED_OFF
  else if String.eqb speed "low" then Some FAN_SPEED_LOW
  else if String.eqb speed "medium" then Some FAN_SPEED_MEDIUM
  else if String.eqb speed "high" then Some FAN_SPEED_HIGH
  else None.

(** Modelled from the spec: the overload [bool set_speed(const char *speed)]
    is defined out of line.  A recognized token is applied through the
    enum setter and reported as success; an unrecognized one is reported
    as failure and nothing is touched. *)
Definition set_speed_str (this : loc) (speed : string) : M T bool :=
  match FanSpeed_of_token speed with
  | Some s => set_speed this s ;; ret true
  | None => ret false
  end.
End FanStateMethods.

(** ** Templatable values and action nodes *)

Module TemplatableValue.
(** Modelled from the spec: [TemplatableValue<V, X>] is declared outside
    this header.  A slot is empty (unset), holds a fixed constant, or
    holds a function of the context that is evaluated when the action
    runs. *)
Inductive t (V X : Type) : Type :=
| Unset
| Constant (v : V)
| Lambda (f : X -> V).

Arguments Unset {V X}.
Arguments Constant {V X} v.
Arguments Lambda {V X} f.

Definition has_value {V X} (tv : t V X) : bool :=
  match tv with
  | Unset => false
  | Constant _ | Lambda _ => true
  end.

(** [value(x)]; an empty slot has no value to give. *)
Definition value {V X} (tv : t V X) (x : X) : option V :=
  match tv with
  | Unset => None
  | Constant v => Some v
  | Lambda f => Some (f x)
  end.
End TemplatableValue.

Module TurnOnAction.
(** The data members of [TurnOnAction<T>]. *)
Record t (T : Type) : Type := mk {
  state_ : loc;
  oscillating_ : TemplatableValue.t bool T;
  speed_ : TemplatableValue.t FanSpeed T
}.

Arguments mk {T} state_ oscillating_ speed_.
Arguments state_ {T} t.
Arguments oscillating_ {T} t.
Arguments speed_ {T} t.

(** [TurnOnAction(FanState *state) : state_(state) {}]: both slots are
    default-constructed, that is, unset. *)
Definition new {T} (state : loc) : t T :=
  mk state TemplatableValue.Unset TemplatableValue.Unset.

(** [set_oscillating(std::function<bool(T)> &&)]. *)
Definition set_oscillating_fn {T} (oscillating : T -> bool) (this : t T)
  : t T :=
  mk (state_ this) (TemplatableValue.Lambda oscillating) (speed_ this).

(** [set_oscillating(bool)]. *)
Definition set_oscillating {T} (oscillating : bool) (this : t T) : t T :=
  mk (state_ this) (TemplatableValue.Constant oscillating) (speed_ this).

(** [set_speed(std::function<FanSpeed(T)> &&)]. *)
Definition set_speed_fn {T} (speed : T -> FanSpeed) (this : t T) : t T :=
  mk (state_ this) (oscillating_ this) (TemplatableValue.Lambda speed).

(** [set_speed(FanSpeed)]. *)
Definition set_speed {T} (speed : FanSpeed) (this : t T) : t T :=
  mk (state_ this) (oscillating_ this) (TemplatableValue.Constant speed).
End TurnOnAction.

Module TurnOffAction.
Record t : Type := mk { state_ : loc }.

(** [TurnOffAction(FanState *state) : state_(state) {}]. *)
Definition new (state : loc) : t := mk state.
End TurnOffAction.

Module ToggleAction.
Record t : Type := mk { state_ : loc }.

(** [ToggleAction(FanState *state) : state_(state) {}]. *)
Definition new (state : loc) : t := mk state.
End ToggleAction.

(** The three classes derived from [Action<T>] in this header. *)
Inductive Node (T : Type) : Type :=
| TurnOn (a : TurnOnAction.t T)
| TurnOff (a : TurnOffAction.t)
| Toggle (a : ToggleAction.t).

Arguments TurnOn {T} a.
Arguments TurnOff {T} a.
Arguments Toggle {T} a.

(** Modelled from the spec: the base class [Action<T>] is declared in
    [automation.h], which is not part of the sources.  An action node
    holds an optional reference to the next node of its chain. *)
#[warnings="-register-all"]
Inductive Action (T : Type) : Type :=
| mkAction (node : Node T) (next_ : option (Action T)).

Arguments mkAction {T} node next_.

(** A node that has not been linked into a chain. *)
Definition unchained {T} (node : Node T) : Action T := mkAction node None.

(** ** The [play] members *)

Section Play.
Context {T : Type}.

(** [FanState::make_turn_on_action<T>()] and its siblings. *)
Definition make_turn_on_action (this : loc) : TurnOnAction.t T :=
  TurnOnAction.new this.

Definition make_turn_off_action (this : loc) : TurnOffAction.t :=
  TurnOffAction.new this.

Definition make_toggle_action (this : loc) : ToggleAction.t :=
  ToggleAction.new this.

(** Modelled from the spec: [Action<T>::play_next] is defined in
    [automation.h].  It forwards [x] to the next chained action if there
    is one; [play] is the virtual [play] of that action. *)
Definition play_next (play : Action T -> T -> M T unit)
    (next_ : option (Action T)) (x : T) : M T unit :=
  emit (EvPlayNext x) ;;
  match next_ with
  | Some a => play a x
  | None => ret tt
  end.

(** [ToggleAction<T>::play]; [next x] is [this->play_next(x)]. *)
Definition ToggleAction_play (this : ToggleAction.t) (next : T -> M T unit)
    (x : T) : M T unit :=
  let* st := get_state (ToggleAction.state_ this) in
  set_state (ToggleAction.state_ this) (negb st) ;;
  next x.

(** [TurnOnAction<T>::play]. *)
Definition TurnOnAction_play (this : TurnOnAction.t T)
    (next : T -> M T unit) (x : T) : M T unit :=
  set_state (TurnOnAction.state_ this) true ;;
  (if TemplatableValue.has_value (TurnOnAction.oscillating_ this)
   then
     let* v :=
       lift_option (TemplatableValue.value (TurnOnAction.oscillating_ this) x) in
     set_oscillating (TurnOnAction.state_ this) v
   else ret tt) ;;
  (if TemplatableValue.has_value (TurnOnAction.speed_ this)
   then
     let* v :=
       lift_option (TemplatableValue.value (TurnOnAction.speed_ this) x) in
     set_speed (TurnOnAction.state_ this) v
   else ret tt) ;;
  next x.

(** [TurnOffAction<T>::play]. *)
Definition TurnOffAction_play (this : TurnOffAction.t)
    (next : T -> M T unit) (x : T) : M T unit :=
  set_state (TurnOffAction.state_ this) false ;;
  next x.

(** The virtual call [a->play(x)]. *)
Fixpoint play (a : Action T) (x : T) {struct a} : M T unit :=
  match a with
  | mkAction node next_ =>
      match node with
      | TurnOn this => TurnOnAction_play this (play_next play next_) x
      | TurnOff this => TurnOffAction_play this (play_next play next_) x
      | Toggle this => ToggleAction_play this (play_next play next_) x
      end
  end.
End Play.

(** ** Reading traces *)

Section Observations.
Context {T : Type}.

(** The events of one change notification of the fan at [l], whose
    object is [fs] when the notification fires: every registered observer
    runs once, in registration order. *)
Definition notifications (l : loc) (fs : FanState.t) : list (Event T) :=
  map (fun cb => EvCallback l cb (snapshot fs)) (FanState.state_callback_ fs).

(** The observer invocations of a trace, in order. *)
Definition observer_calls (evs : list (Event T)) : list (loc * Callback) :=
  omap (fun e => match e with
                 | EvCallback l cb _ => Some (l, cb)
                 | _ => None
                 end) evs.

(** The calls of the enum setter [set_speed] in a trace, in order. *)
Definition set_speed_calls (evs : list (Event T)) : list (loc * FanSpeed) :=
  omap (fun e => match e with
                 | EvSetSpeed l s => Some (l, s)
                 | _ => None
                 end) evs.

(** The hand-overs to the next action in a trace, with their contexts. *)
Definition play_next_calls (evs : list (Event T)) : list T :=
  omap (fun e => match e with
                 | EvPlayNext x => Some x
                 | _ => None
                 end) evs.

(** Registers the observers [cbs] one after the other. *)
Fixpoint register_all (l : loc) (cbs : list Callback) : M T unit :=
  match cbs with
  | [] => ret tt
  | cb :: rest => add_on_state_change_callback l cb ;; register_all l rest
  end.

(** Control passing to the successor of a node, if it has one. *)
Definition enter_next (next_ : option (Action T)) (x : T) : M T unit :=
  match next_ with
  | Some a => play a x
  | None => ret tt
  end.

(** The effect of a slot of [TurnOnAction] on the attribute it governs:
    an unset slot keeps the [old] value. *)
Definition slot_result {V} (slot : TemplatableValue.t V T) (x : T) (old : V)
  : V :=
  match TemplatableValue.value slot x with
  | Some v => v
  | None => old
  end.

(** The fan object a [TurnOnAction] leaves behind when it ran with
    context [x] on the object [fs]. *)
Definition turned_on (a : TurnOnAction.t T) (x : T) (fs : FanState.t)
  : FanState.t :=
  FanState.mk (FanState.name_ fs) true
    (slot_result (TurnOnAction.oscillating_ a) x (FanState.oscillating_ fs))
    (slot_result (TurnOnAction.speed_ a) x (FanState.speed_ fs))
    (FanState.traits_ fs) (FanState.state_callback_ fs).
End Observations.

(** ** Chains as node sequences *)

Section Chains.
Context {T : Type}.

(** The fan a node is bound to: its [state_] member. *)
Definition node_target (nd : Node T) : loc :=
  match nd with
  | TurnOn a => TurnOnAction.state_ a
  | TurnOff a => TurnOffAction.state_ a
  | Toggle a => ToggleAction.state_ a
  end.

(** The nodes of a chain, head first, following the [next_] references. *)
Fixpoint chain_nodes (a : Action T) : list (Node T) :=
  match a with
  | mkAction node next_ =>
      node :: match next_ with
              | Some a' => chain_nodes a'
              | None => []
              end
  end.

(** Every node of the chain is bound to a fan that exists in [h]. *)
Definition chain_bound (h : gmap loc FanState.t) (a : Action T) : bool :=
  forallb (fun nd => match h !! node_target nd with
                     | Some _ => true
                     | None => false
                     end) (chain_nodes a).

(** Some node of the chain is bound to the fan at [l]. *)
Definition chain_targets (a : Action T) (l : loc) : bool :=
  existsb (fun nd => Nat.eqb (node_target nd) l) (chain_nodes a).

(** No node of the chain is a [TurnOnAction]. *)
Definition chain_without_TurnOn (a : Action T) : bool :=
  forallb (fun nd => match nd with
                     | TurnOn _ => false
                     | TurnOff _ | Toggle _ => true
                     end) (chain_nodes a).

(** What the [play] of a node passes to [set_state], given the power value
    [b] the fan has: [true], [false], or [!get_state()]. *)
Definition node_power (nd : Node T) (b : bool) : bool :=
  match nd with
  | TurnOn _ => true
  | TurnOff _ => false
  | Toggle _ => negb b
  end.

(** The power value of the fan at [l] after the nodes ran in order, from
    the power value [b]: only the nodes bound to [l] count. *)
Definition power_after (l : loc) (nodes : list (Node T)) (b : bool) : bool :=
  fold_left (fun b nd => if Nat.eqb (node_target nd) l
                         then node_power nd b else b) nodes b.

(** The calls of [set_state] in a trace, in order. *)
Definition set_state_calls (evs : list (Event T)) : list (loc * bool) :=
  omap (fun e => match e with
                 | EvSetState l b => Some (l, b)
                 | _ => None
                 end) evs.

(** The object a node leaves behind when its [play] ran with context [x]
    on the object [fs]. *)
Definition node_effect (nd : Node T) (x : T) (fs : FanState.t) : FanState.t :=
  match nd with
  | TurnOn a => turned_on a x fs
  | TurnOff _ => FanState.with_state false fs
  | Toggle _ => FanState.with_state (negb (FanState.state_ fs)) fs
  end.

(** The calls of [set_oscillating] in a trace, in order. *)
Definition set_oscillating_calls (evs : list (Event T)) : list (loc * bool) :=
  omap (fun e => match e with
                 | EvSetOscillating l b => Some (l, b)
                 | _ => None
                 end) evs.
End Chains.

(** ** A concrete scene

    One fan at address [1], switched off, at its default speed, watched by
    the observers [7] and [9] (registered in that order); the context type
    of the automations is [nat]. *)

Definition demo_fan : FanState.t :=
  FanState.mk "living_room_fan" false false FAN_SPEED_HIGH
    (FanTraits.mk true true) [7; 9].

Definition demo_world : World nat := mkWorld {[ 1 := demo_fan ]} [].

(** A speed computed from the context, as a lambda slot would hold it. *)
Definition demo_speed_of (x : nat) : FanSpeed :=
  match x with
  | 0 => FAN_SPEED_OFF
  | 1 => FAN_SPEED_LOW
  | 2 => FAN_SPEED_MEDIUM
  | _ => FAN_SPEED_HIGH
  end.

(** A second scene: the fan of the first one and, at address [2], a
    running fan with one observer. *)
Definition demo_fan2 : FanState.t :=
  FanState.mk "bedroom_fan" true true FAN_SPEED_LOW
    (FanTraits.mk false true) [5].

Definition demo_world2 : World nat :=
  mkWorld (<[2 := demo_fan2]> {[ 1 := demo_fan ]}) [].

(** An oscillation setting computed from the context. *)
Definition demo_oscillating_of (x : nat) : bool := Nat.even x.

(** Toggle fan [1], turn fan [2] off, toggle fan [1] again. *)
Definition demo_chain : Action nat :=
  mkAction (Toggle (make_toggle_action 1))
    (Some (mkAction (TurnOff (make_turn_off_action 2))
       (Some (unchained (Toggle (make_toggle_action 1)))))).

(** ** Running the monad *)

Section MonadFacts.
Context {T : Type}.
Implicit Types (w : World T) (l : loc) (fs : FanState.t).

Lemma bind_run {A B} (c : M T A) (k : A -> M T B) w a w' :
  c w = Some (a, w') -> bind c k w = k a w'.
Proof. intros H. unfold bind. now rewrite H. Qed.

Lemma load_run l w fs : heap w !! l = Some fs -> load l w = Some (fs, w).
Proof. intros H. unfold load. now rewrite H. Qed.

Lemma store_run l w fs fs' :
  heap w !! l = Some fs ->
  store l fs' w = Some (tt, mkWorld (<[l := fs']> (heap w)) (trace w)).
Proof. intros H. unfold store. now rewrite H. Qed.

Lemma world_eta w : mkWorld (heap w) (trace w) = w.
Proof. now destruct w. Qed.

(** The fan-out visits the callbacks front to back, one event each. *)
Lemma CallbackManager_call_run l fs (cbs : list Callback) w :
  heap w !! l = Some fs ->
  CallbackManager_call (invoke_observer l) cbs w =
    Some (tt, mkWorld (heap w)
                (trace w ++ map (fun cb => EvCallback l cb (snapshot fs)) cbs)).
Proof.
  revert w. induction cbs as [|cb rest IH]; intros w H; simpl.
  - rewrite app_nil_r, world_eta. reflexivity.
  - erewrite bind_run.
    2: { unfold invoke_observer.
         erewrite bind_run by (apply load_run; exact H). reflexivity. }
    rewrite IH by exact H. simpl. now rewrite <- app_assoc.
Qed.

Lemma notify_run l fs w :
  heap w !! l = Some fs ->
  notify l w = Some (tt, mkWorld (heap w) (trace w ++ notifications l fs)).
Proof.
  intros H. unfold notify.
  erewrite bind_run by (apply load_run; exact H).
  now apply CallbackManager_call_run.
Qed.

(** The common shape of the three attribute setters. *)
Lemma setter_run (e : Event T) (upd : FanState.t -> FanState.t) l fs w :
  heap w !! l = Some fs ->
  (emit e ;; let* fs0 := load l in store l (upd fs0) ;; notify l) w =
    Some (tt, mkWorld (<[l := upd fs]> (heap w))
                (trace w ++ e :: notifications l (upd fs))).
Proof.
  intros H. unfold emit at 1.
  erewrite bind_run by reflexivity.
  erewrite bind_run by (apply load_run; exact H).
  erewrite bind_run by (eapply store_run; exact H).
  erewrite notify_run by (simpl; apply lookup_insert_eq).
  simpl. now rewrite <- app_assoc.
Qed.

Lemma set_state_run l b fs w :
  heap w !! l = Some fs ->
  set_state l b w =
    Some (tt, mkWorld (<[l := FanState.with_state b fs]> (heap w))
                (trace w ++ EvSetState l b
                   :: notifications l (FanState.with_state b fs))).
Proof. apply setter_run. Qed.

Lemma set_oscillating_run l b fs w :
  heap w !! l = Some fs ->
  set_oscillating l b w =
    Some (tt, mkWorld (<[l := FanState.with_oscillating b fs]> (heap w))
                (trace w ++ EvSetOscillating l b
                   :: notifications l (FanState.with_oscillating b fs))).
Proof. apply setter_run. Qed.

Lemma set_speed_run l s fs w :
  heap w !! l = Some fs ->
  set_speed l s w =
    Some (tt, mkWorld (<[l := FanState.with_speed s fs]> (heap w))
                (trace w ++ EvSetSpeed l s
                   :: notifications l (FanState.with_speed s fs))).
Proof. apply setter_run. Qed.

Lemma get_state_run l fs w :
  heap w !! l = Some fs -> get_state l w = Some (FanState.state_ fs, w).
Proof. intros H. unfold get_state. now erewrite bind_run by (apply load_run; exact H). Qed.

Lemma is_oscillating_run l fs w :
  heap w !! l = Some fs ->
  is_oscillating l w = Some (FanState.oscillating_ fs, w).
Proof.
  intros H. unfold is_oscillating. now erewrite bind_run by (apply load_run; exact H).
Qed.

Lemma get_speed_run l fs w :
  heap w !! l = Some fs -> get_speed l w = Some (FanState.speed_ fs, w).
Proof. intros H. unfold get_speed. now erewrite bind_run by (apply load_run; exact H). Qed.

Lemma get_traits_run l fs w :
  heap w !! l = Some fs -> get_traits l w = Some (FanState.traits_ fs, w).
Proof. intros H. unfold get_traits. now erewrite bind_run by (apply load_run; exact H). Qed.
End MonadFacts.

(** ** Running the actions *)

Section ActionFacts.
Context {T : Type}.
Implicit Types (w : World T) (l : loc) (fs : FanState.t) (x : T).

Lemma play_next_run (n : option (Action T)) x w :
  play_next play n x w =
    enter_next n x (mkWorld (heap w) (trace w ++ [EvPlayNext x])).
Proof. unfold play_next, enter_next. erewrite bind_run; reflexivity. Qed.

(** One step of a monadic run: the head command is a setter or getter on
    an object the heap holds. *)
Ltac run_head :=
  erewrite bind_run by
    (first [ eapply set_state_run | eapply set_oscillating_run
           | eapply set_speed_run | eapply get_state_run ];
     simpl; first [ eassumption | apply lookup_insert_eq ]).

Lemma play_Toggle_run (t : ToggleAction.t) n x w fs :
  heap w !! ToggleAction.state_ t = Some fs ->
  let l := ToggleAction.state_ t in
  let fs' := FanState.with_state (negb (FanState.state_ fs)) fs in
  play (mkAction (Toggle t) n) x w =
    enter_next n x
      (mkWorld (<[l := fs']> (heap w))
         (trace w ++ EvSetState l (negb (FanState.state_ fs))
            :: notifications l fs' ++ [EvPlayNext x])).
Proof.
  intros H l fs'. simpl. unfold ToggleAction_play.
  do 2 run_head. rewrite play_next_run. simpl.
  now rewrite <- app_assoc.
Qed.

Lemma play_TurnOff_run (t : TurnOffAction.t) n x w fs :
  heap w !! TurnOffAction.state_ t = Some fs ->
  let l := TurnOffAction.state_ t in
  let fs' := FanState.with_state false fs in
  play (mkAction (TurnOff t) n) x w =
    enter_next n x
      (mkWorld (<[l := fs']> (heap w))
         (trace w ++ EvSetState l false
            :: notifications l fs' ++ [EvPlayNext x])).
Proof.
  intros H l fs'. simpl. unfold TurnOffAction_play.
  run_head. rewrite play_next_run. simpl.
  now rewrite <- app_assoc.
Qed.

Lemma play_TurnOn_run (a : TurnOnAction.t T) n x w fs :
  heap w !! TurnOnAction.state_ a = Some fs ->
  let l := TurnOnAction.state_ a in
  let osc := TurnOnAction.oscillating_ a in
  let sp := TurnOnAction.speed_ a in
  let fs1 := FanState.with_state true fs in
  let fs2 :=
    if TemplatableValue.has_value osc
    then FanState.with_oscillating
           (slot_result osc x (FanState.oscillating_ fs)) fs1
    else fs1 in
  let fs3 :=
    if TemplatableValue.has_value sp
    then FanState.with_speed (slot_result sp x (FanState.speed_ fs)) fs2
    else fs2 in
  play (mkAction (TurnOn a) n) x w =
    enter_next n x
      (mkWorld (<[l := fs3]> (heap w))
         (trace w
            ++ [EvSetState l true] ++ notifications l fs1
            ++ (if TemplatableValue.has_value osc
                then EvSetOscillating l (FanState.oscillating_ fs2)
                       :: notifications l fs2
                else [])
            ++ (if TemplatableValue.has_value sp
                then EvSetSpeed l (FanState.speed_ fs3)
                       :: notifications l fs3
                else [])
            ++ [EvPlayNext x])).
Proof.
  destruct a as [l osc sp]. simpl. intros H.
  unfold TurnOnAction_play. simpl. run_head.
  destruct osc as [|o|fo], sp as [|s|fsp]; simpl; unfold slot_result; simpl;
    repeat (erewrite bind_run by reflexivity);
    repeat run_head;
    repeat (erewrite bind_run by reflexivity);
    rewrite play_next_run; simpl;
    rewrite ?insert_insert_eq, <- ?app_assoc; simpl;
    rewrite <- ?app_assoc; reflexivity.
Qed.
End ActionFacts.

(** ** Properties of [FanState] *)

Section FanStateProperties.
Context {T : Type}.
Implicit Types (w : World T) (l : loc) (fs : FanState.t).

Lemma with_state_callback_id fs :
  FanState.with_state_callback (FanState.state_callback_ fs) fs = fs.
Proof. now destruct fs. Qed.

Lemma observer_calls_map l (seen : Snapshot) (cbs : list Callback) :
  observer_calls (T := T) (map (fun cb => EvCallback l cb seen) cbs) =
    map (pair l) cbs.
Proof.
  induction cbs as [|cb rest IH]; [reflexivity|].
  simpl. f_equal. exact IH.
Qed.

Lemma observer_calls_notifications l fs :
  observer_calls (notifications (T := T) l fs) =
    map (pair l) (FanState.state_callback_ fs).
Proof. apply observer_calls_map. Qed.

(** Registration appends: after registering [cbs], the fan's observers
    are the earlier ones followed by [cbs], and nothing else changed. *)
Lemma register_all_run l cbs w fs :
  heap w !! l = Some fs ->
  register_all l cbs w =
    Some (tt, mkWorld
                (<[l := FanState.with_state_callback
                          (FanState.state_callback_ fs ++ cbs) fs]> (heap w))
                (trace w)).
Proof.
  revert w fs. induction cbs as [|cb rest IH]; intros w fs H; simpl.
  - rewrite app_nil_r, with_state_callback_id, insert_id by exact H.
    now rewrite world_eta.
  - unfold add_on_state_change_callback.
    erewrite bind_run.
    2: { erewrite bind_run by (apply load_run; exact H).
         eapply store_run; exact H. }
    erewrite IH by (simpl; apply lookup_insert_eq).
    simpl. unfold CallbackManager.add.
    now rewrite insert_insert_eq, <- app_assoc.
Qed.

(** C1: for every boolean [b], [set_state(b)] followed by [get_state()]
    returns [b]; and during the call of [set_state] every observer
    registered before it through [add_on_state_change_callback] (the ones
    the fan already had, then [cbs] in the order they were added) is
    invoked exactly once, in registration order, before [set_state]
    returns. *)
Theorem set_state_get_state_notifies l w fs (cbs : list Callback) (b : bool) :
  heap w !! l = Some fs ->
  exists w1 w2 evs,
    register_all l cbs w = Some (tt, w1) /\
    set_state l b w1 = Some (tt, w2) /\
    get_state l w2 = Some (b, w2) /\
    trace w2 = trace w1 ++ evs /\
    observer_calls evs = map (pair l) (FanState.state_callback_ fs ++ cbs).
Proof.
  intros H.
  set (fs1 := FanState.with_state_callback
                (FanState.state_callback_ fs ++ cbs) fs).
  assert (H1 : heap (mkWorld (T := T) (<[l := fs1]> (heap w)) (trace w)) !! l
               = Some fs1) by apply lookup_insert_eq.
  eexists _, _, _. split; [eapply register_all_run; exact H|].
  split; [eapply set_state_run; exact H1|].
  split; [|split; [reflexivity|]].
  - erewrite get_state_run by (simpl; apply lookup_insert_eq). reflexivity.
  - simpl. apply observer_calls_notifications.
Qed.

(** C8: for every boolean [b], [set_state(b)] stores [b] and fires the
    change notification to every registered observer, whatever the power
    value stored before: the resulting world does not depend on it, so a
    redundant write is neither skipped nor silenced. *)
Theorem set_state_no_suppression l w fs (b : bool) :
  heap w !! l = Some fs ->
  let fs' := FanState.with_state b fs in
  set_state l b w =
    Some (tt, mkWorld (<[l := fs']> (heap w))
                (trace w ++ EvSetState l b :: notifications l fs')) /\
  FanState.state_ fs' = b /\
  observer_calls (notifications (T := T) l fs') =
    map (pair l) (FanState.state_callback_ fs).
Proof.
  intros H fs'. split; [now apply set_state_run|].
  split; [reflexivity|]. exact (observer_calls_notifications l fs').
Qed.

(** C7: a freshly constructed [FanState] is switched off, does not
    oscillate, and has speed [FAN_SPEED_HIGH]. *)
Theorem fresh_FanState_defaults (default_traits : FanTraits.t) l
    (name : string) w :
  exists w',
    FanState_construct default_traits l name w = Some (tt, w') /\
    get_state l w' = Some (false, w') /\
    is_oscillating l w' = Some (false, w') /\
    get_speed l w' = Some (FAN_SPEED_HIGH, w').
Proof.
  eexists. split; [reflexivity|].
  assert (H : heap (mkWorld (T := T)
                      (<[l := FanState_new default_traits name]> (heap w))
                      (trace w)) !! l
              = Some (FanState_new default_traits name))
    by apply lookup_insert_eq.
  split; [|split].
  - now erewrite get_state_run by exact H.
  - now erewrite is_oscillating_run by exact H.
  - now erewrite get_speed_run by exact H.
Qed.

(** C2: the textual [set_speed] either recognizes its token as exactly
    one [FanSpeed] value, applies it through the enum setter and reports
    success (so ["medium"] acts as [FAN_SPEED_MEDIUM]), or does not
    recognize it, reports failure and leaves the whole world untouched,
    the stored speed included. *)
Theorem set_speed_str_recognized_or_unchanged l w fs (speed : string) :
  heap w !! l = Some fs ->
  match FanSpeed_of_token speed with
  | Some s =>
      exists w',
        set_speed l s w = Some (tt, w') /\
        set_speed_str l speed w = Some (true, w') /\
        get_speed l w' = Some (s, w')
  | None =>
      set_speed_str l speed w = Some (false, w) /\
      get_speed l w = Some (FanState.speed_ fs, w)
  end /\
  (exists w',
     set_speed l FAN_SPEED_MEDIUM w = Some (tt, w') /\
     set_speed_str l "medium" w = Some (true, w')) /\
  set_speed_str l "bogus" w = Some (false, w).
Proof.
  intros H.
  assert (R : forall tok s, FanSpeed_of_token tok = Some s ->
            exists w',
              set_speed l s w = Some (tt, w') /\
              set_speed_str l tok w = Some (true, w') /\
              get_speed l w' = Some (s, w')).
  { intros tok s Htok. eexists. split; [eapply set_speed_run; exact H|].
    split.
    - unfold set_speed_str. rewrite Htok.
      erewrite bind_run by (eapply set_speed_run; exact H). reflexivity.
    - erewrite get_speed_run by (simpl; apply lookup_insert_eq).
      reflexivity. }
  split; [|split].
  - destruct (FanSpeed_of_token speed) as [s|] eqn:Htok.
    + exact (R speed s Htok).
    + unfold set_speed_str. rewrite Htok.
      split; [reflexivity | apply get_speed_run; exact H].
  - destruct (R "medium"%string FAN_SPEED_MEDIUM eq_refl) as (w' & ? & ? & _).
    now exists w'.
  - reflexivity.
Qed.
End FanStateProperties.

(** ** Properties of the actions *)

Section ActionProperties.
Context {T : Type}.
Implicit Types (w : World T) (l : loc) (fs : FanState.t) (x : T).

Lemma play_next_calls_notifications l fs :
  play_next_calls (notifications (T := T) l fs) = [].
Proof.
  unfold notifications.
  induction (FanState.state_callback_ fs) as [|cb rest IH];
    [reflexivity | exact IH].
Qed.

Lemma set_speed_calls_notifications l fs :
  set_speed_calls (notifications (T := T) l fs) = [].
Proof.
  unfold notifications.
  induction (FanState.state_callback_ fs) as [|cb rest IH];
    [reflexivity | exact IH].
Qed.

Lemma play_next_calls_app (evs1 evs2 : list (Event T)) :
  play_next_calls (evs1 ++ evs2) = play_next_calls evs1 ++ play_next_calls evs2.
Proof. apply omap_app. Qed.

Lemma set_speed_calls_app (evs1 evs2 : list (Event T)) :
  set_speed_calls (evs1 ++ evs2) = set_speed_calls evs1 ++ set_speed_calls evs2.
Proof. apply omap_app. Qed.

(** Reads the calls off a trace built from setter events and
    notifications. *)
Ltac read_calls :=
  repeat first
    [ rewrite play_next_calls_app | rewrite set_speed_calls_app
    | rewrite play_next_calls_notifications
    | rewrite set_speed_calls_notifications
    | progress simpl ];
  try reflexivity.

(** What a [TurnOnAction] has done when it hands over to its successor. *)
Lemma play_TurnOn_result (a : TurnOnAction.t T) n x w fs :
  heap w !! TurnOnAction.state_ a = Some fs ->
  exists evs,
    play (mkAction (TurnOn a) n) x w =
      enter_next n x
        (mkWorld (<[TurnOnAction.state_ a := turned_on a x fs]> (heap w))
           (trace w ++ evs ++ [EvPlayNext x])) /\
    play_next_calls evs = [] /\
    set_speed_calls evs =
      match TemplatableValue.value (TurnOnAction.speed_ a) x with
      | Some s => [(TurnOnAction.state_ a, s)]
      | None => []
      end.
Proof.
  intros H. rewrite (@play_TurnOn_run T a n x w fs H).
  set (l := TurnOnAction.state_ a).
  set (fs1 := FanState.with_state true fs).
  set (fs2 := if TemplatableValue.has_value (TurnOnAction.oscillating_ a)
              then _ else fs1).
  set (fs3 := if TemplatableValue.has_value (TurnOnAction.speed_ a)
              then _ else fs2).
  exists ([EvSetState l true] ++ notifications l fs1
          ++ (if TemplatableValue.has_value (TurnOnAction.oscillating_ a)
              then EvSetOscillating l (FanState.oscillating_ fs2)
                     :: notifications l fs2
              else [])
          ++ (if TemplatableValue.has_value (TurnOnAction.speed_ a)
              then EvSetSpeed l (FanState.speed_ fs3) :: notifications l fs3
              else [])).
  subst l fs1 fs2 fs3.
  destruct a as [l [|o|fo] [|s|fsp]]; simpl;
    (split; [ rewrite <- ?app_assoc; simpl; rewrite <- ?app_assoc; reflexivity
            | split; read_calls ]).
Qed.

Lemma play_TurnOn_unchained (a : TurnOnAction.t T) x w fs :
  heap w !! TurnOnAction.state_ a = Some fs ->
  exists evs,
    play (unchained (TurnOn a)) x w =
      Some (tt, mkWorld (<[TurnOnAction.state_ a := turned_on a x fs]> (heap w))
                  (trace w ++ evs ++ [EvPlayNext x])) /\
    set_speed_calls evs =
      match TemplatableValue.value (TurnOnAction.speed_ a) x with
      | Some s => [(TurnOnAction.state_ a, s)]
      | None => []
      end.
Proof.
  intros H. destruct (@play_TurnOn_result a None x w fs H) as (evs & E & _ & S).
  exists evs. split; [exact E | exact S].
Qed.

(** C3: whatever the power value at the start, playing a [ToggleAction]
    (one that stands alone, with no successor in its chain) twice in
    succession on the same fan brings [get_state()] back to the value it
    had at the start. *)
Theorem toggle_twice_restores_state (t : ToggleAction.t) (x1 x2 : T) w fs :
  heap w !! ToggleAction.state_ t = Some fs ->
  exists b w1 w2,
    get_state (ToggleAction.state_ t) w = Some (b, w) /\
    play (unchained (Toggle t)) x1 w = Some (tt, w1) /\
    get_state (ToggleAction.state_ t) w1 = Some (negb b, w1) /\
    play (unchained (Toggle t)) x2 w1 = Some (tt, w2) /\
    get_state (ToggleAction.state_ t) w2 = Some (b, w2).
Proof.
  intros H. set (l := ToggleAction.state_ t) in *.
  set (fs1 := FanState.with_state (negb (FanState.state_ fs)) fs).
  pose proof (@play_Toggle_run T t None x1 w fs H) as P1. simpl in P1.
  assert (H1 : heap (T := T)
                 (mkWorld (<[l := fs1]> (heap w))
                    (trace w ++ EvSetState l (negb (FanState.state_ fs))
                       :: notifications l fs1 ++ [EvPlayNext x1])) !! l
               = Some fs1) by apply lookup_insert_eq.
  pose proof (@play_Toggle_run T t None x2 _ fs1 H1) as P2. simpl in P2.
  exists (FanState.state_ fs). eexists _, _.
  split; [apply get_state_run; exact H|].
  split; [exact P1|].
  split; [erewrite get_state_run by exact H1; reflexivity|].
  split; [exact P2|].
  erewrite get_state_run by (simpl; apply lookup_insert_eq).
  simpl. now rewrite negb_involutive.
Qed.

(** C4: for every fan and every context value, a [TurnOnAction] whose
    speed slot was never configured leaves [get_speed()] as it was, one
    whose oscillation slot was never configured leaves [is_oscillating()]
    as it was, and in both cases [get_state()] is true afterwards.  (The
    action stands alone; the action a factory call returns has both slots
    unset.) *)
Theorem TurnOn_unset_slot_keeps_attribute l
    (osc : TemplatableValue.t bool T) (sp : TemplatableValue.t FanSpeed T)
    x w fs :
  heap w !! l = Some fs ->
  (exists w',
     play (unchained (TurnOn (TurnOnAction.mk l osc TemplatableValue.Unset)))
       x w = Some (tt, w') /\
     get_state l w' = Some (true, w') /\
     get_speed l w' = Some (FanState.speed_ fs, w')) /\
  (exists w',
     play (unchained (TurnOn (TurnOnAction.mk l TemplatableValue.Unset sp)))
       x w = Some (tt, w') /\
     get_state l w' = Some (true, w') /\
     is_oscillating l w' = Some (FanState.oscillating_ fs, w')) /\
  make_turn_on_action (T := T) l =
    TurnOnAction.mk l TemplatableValue.Unset TemplatableValue.Unset.
Proof.
  intros H. split; [|split; [|reflexivity]].
  - destruct (@play_TurnOn_unchained
                (TurnOnAction.mk l osc TemplatableValue.Unset) x w fs H)
      as (evs & E & _).
    eexists. split; [exact E|].
    split.
    + erewrite get_state_run by (simpl; apply lookup_insert_eq). reflexivity.
    + erewrite get_speed_run by (simpl; apply lookup_insert_eq). reflexivity.
  - destruct (@play_TurnOn_unchained
                (TurnOnAction.mk l TemplatableValue.Unset sp) x w fs H)
      as (evs & E & _).
    eexists. split; [exact E|].
    split.
    + erewrite get_state_run by (simpl; apply lookup_insert_eq). reflexivity.
    + erewrite is_oscillating_run by (simpl; apply lookup_insert_eq).
      reflexivity.
Qed.

(** C5: for every context value [x] and every function [f], a
    [TurnOnAction] whose speed slot was configured with [f] calls the
    enum setter [set_speed] exactly once when it is played with [x], with
    the argument [f x], and [get_speed()] is [f x] afterwards.  (The
    action stands alone.) *)
Theorem TurnOn_speed_function_gets_context (a : TurnOnAction.t T)
    (f : T -> FanSpeed) x w fs :
  heap w !! TurnOnAction.state_ a = Some fs ->
  exists w' evs,
    play (unchained (TurnOn (TurnOnAction.set_speed_fn f a))) x w
      = Some (tt, w') /\
    trace w' = trace w ++ evs /\
    set_speed_calls evs = [(TurnOnAction.state_ a, f x)] /\
    get_speed (TurnOnAction.state_ a) w' = Some (f x, w').
Proof.
  intros H.
  destruct (@play_TurnOn_unchained (TurnOnAction.set_speed_fn f a) x w fs H)
    as (evs & E & S).
  simpl in E, S.
  eexists _, (evs ++ [EvPlayNext x]). split; [exact E|].
  split; [reflexivity|]. split.
  - rewrite set_speed_calls_app, S. reflexivity.
  - erewrite get_speed_run by (simpl; apply lookup_insert_eq). reflexivity.
Qed.

(** C6: for every starting state and every input [x], playing the chain
    TurnOn, then Toggle (both bound to the same fan) ends with power
    false, while oscillation and speed are what the TurnOn made them: the
    value of each configured slot, the earlier value where the slot is
    unset. *)
Theorem TurnOn_then_Toggle (a : TurnOnAction.t T) x w fs :
  heap w !! TurnOnAction.state_ a = Some fs ->
  let l := TurnOnAction.state_ a in
  exists w',
    play (mkAction (TurnOn a)
            (Some (unchained (Toggle (make_toggle_action l))))) x w
      = Some (tt, w') /\
    get_state l w' = Some (false, w') /\
    is_oscillating l w' =
      Some (slot_result (TurnOnAction.oscillating_ a) x
              (FanState.oscillating_ fs), w') /\
    get_speed l w' =
      Some (slot_result (TurnOnAction.speed_ a) x (FanState.speed_ fs), w').
Proof.
  intros H l.
  destruct (@play_TurnOn_result a
              (Some (unchained (Toggle (make_toggle_action l)))) x w fs H)
    as (evs & E & _).
  fold l in E. rewrite E. clear E. unfold enter_next.
  erewrite (@play_Toggle_run T (make_toggle_action l) None x)
    by (simpl; apply lookup_insert_eq).
  simpl. eexists. split; [reflexivity|].
  split; [|split].
  - erewrite get_state_run by (simpl; apply lookup_insert_eq). reflexivity.
  - erewrite is_oscillating_run by (simpl; apply lookup_insert_eq).
    reflexivity.
  - erewrite get_speed_run by (simpl; apply lookup_insert_eq). reflexivity.
Qed.

(** C9: for every starting state and every context value [x], a
    [TurnOffAction] sets power to false (notifying the observers) and
    then hands [x] over to the next chained action, once; the successor
    starts from a world in which oscillation, speed and the traits
    descriptor of the fan are what they were, and in which no other
    object was written. *)
Theorem TurnOff_play_frame (t : TurnOffAction.t) n x w fs :
  heap w !! TurnOffAction.state_ t = Some fs ->
  let l := TurnOffAction.state_ t in
  let fs' := FanState.with_state false fs in
  let w1 :=
    mkWorld (<[l := fs']> (heap w))
      (trace w ++ EvSetState l false :: notifications l fs'
         ++ [EvPlayNext x]) in
  play (mkAction (TurnOff t) n) x w = enter_next n x w1 /\
  get_state l w1 = Some (false, w1) /\
  is_oscillating l w1 = Some (FanState.oscillating_ fs, w1) /\
  get_speed l w1 = Some (FanState.speed_ fs, w1) /\
  get_traits l w1 = Some (FanState.traits_ fs, w1) /\
  play_next_calls (EvSetState l false :: notifications l fs'
                     ++ [EvPlayNext x]) = [x].
Proof.
  intros H l fs' w1.
  split; [exact (@play_TurnOff_run T t n x w fs H)|].
  assert (H1 : heap w1 !! l = Some fs') by apply lookup_insert_eq.
  split; [exact (get_state_run _ _ H1)|].
  split; [exact (is_oscillating_run _ _ H1)|].
  split; [exact (get_speed_run _ _ H1)|].
  split; [exact (get_traits_run _ _ H1)|].
  read_calls.
Qed.

(** C10: every run of [TurnOnAction::play] mutates the fan in one fixed
    order: [set_state(true)] and its notification first, then
    [set_oscillating] if and only if the oscillation slot is configured,
    then [set_speed] if and only if the speed slot is configured; after
    these, [play_next] is invoked, exactly once, and only then does
    control reach the successor. *)
Theorem TurnOn_play_order (a : TurnOnAction.t T) n x w fs :
  heap w !! TurnOnAction.state_ a = Some fs ->
  let l := TurnOnAction.state_ a in
  let osc := TurnOnAction.oscillating_ a in
  let sp := TurnOnAction.speed_ a in
  let fs1 := FanState.with_state true fs in
  let fs2 :=
    if TemplatableValue.has_value osc
    then FanState.with_oscillating
           (slot_result osc x (FanState.oscillating_ fs)) fs1
    else fs1 in
  let fs3 :=
    if TemplatableValue.has_value sp
    then FanState.with_speed (slot_result sp x (FanState.speed_ fs)) fs2
    else fs2 in
  let evs :=
    [EvSetState l true] ++ notifications l fs1
    ++ (if TemplatableValue.has_value osc
        then EvSetOscillating l (FanState.oscillating_ fs2)
               :: notifications l fs2
        else [])
    ++ (if TemplatableValue.has_value sp
        then EvSetSpeed l (FanState.speed_ fs3) :: notifications l fs3
        else []) in
  play (mkAction (TurnOn a) n) x w =
    enter_next n x
      (mkWorld (<[l := fs3]> (heap w)) (trace w ++ evs ++ [EvPlayNext x])) /\
  play_next_calls (evs ++ [EvPlayNext x]) = [x].
Proof.
  intros H l osc sp fs1 fs2 fs3 evs.
  rewrite (@play_TurnOn_run T a n x w fs H).
  subst l osc sp fs1 fs2 fs3 evs.
  destruct a as [l [|o|fo] [|s|fsp]]; simpl;
    (split; [ rewrite <- ?app_assoc; simpl; rewrite <- ?app_assoc; reflexivity
            | read_calls ]).
Qed.
End ActionProperties.

(** ** The concrete scene, run *)

(** The heap of the scene holds the fan at address [1]. *)
Lemma demo_world_fan : heap demo_world !! 1 = Some demo_fan.
Proof. reflexivity. Qed.

(** Turning the fan on with a speed computed from the context [2], then
    toggling it: the events, in order. *)
Example demo_chain_trace :
  trace <$> exec
    (play (mkAction
             (TurnOn (TurnOnAction.set_speed_fn demo_speed_of
                        (make_turn_on_action 1)))
             (Some (unchained (Toggle (make_toggle_action 1))))) 2)
    demo_world
  = Some [ EvSetState 1 true;
           EvCallback 1 7 (mkSnapshot true false FAN_SPEED_HIGH);
           EvCallback 1 9 (mkSnapshot true false FAN_SPEED_HIGH);
           EvSetSpeed 1 FAN_SPEED_MEDIUM;
           EvCallback 1 7 (mkSnapshot true false FAN_SPEED_MEDIUM);
           EvCallback 1 9 (mkSnapshot true false FAN_SPEED_MEDIUM);
           EvPlayNext 2;
           EvSetState 1 false;
           EvCallback 1 7 (mkSnapshot false false FAN_SPEED_MEDIUM);
           EvCallback 1 9 (mkSnapshot false false FAN_SPEED_MEDIUM);
           EvPlayNext 2 ].
Proof. vm_compute. reflexivity. Qed.

(** An action bound to an address that holds no fan has no result. *)
Example demo_dangling :
  play (unchained (Toggle (make_toggle_action 2))) 0 demo_world = None.
Proof. vm_compute. reflexivity. Qed.

(** The textual setter on the tokens of the four levels and on others. *)
Example demo_tokens :
  map FanSpeed_of_token ["off"; "low"; "medium"; "high"; "bogus"; ""]%string
  = [ Some FAN_SPEED_OFF; Some FAN_SPEED_LOW; Some FAN_SPEED_MEDIUM;
      Some FAN_SPEED_HIGH; None; None ].
Proof. reflexivity. Qed.

Lemma set_state_get_state_notifies_witness :
  heap demo_world !! 1 = Some demo_fan /\
  exists w1 w2 evs,
    register_all 1 [11; 12] demo_world = Some (tt, w1) /\
    set_state 1 true w1 = Some (tt, w2) /\
    get_state 1 w2 = Some (true, w2) /\
    trace w2 = trace w1 ++ evs /\
    observer_calls evs = map (pair 1) ([7; 9] ++ [11; 12]).
Proof.
  split; [reflexivity|].
  apply (@set_state_get_state_notifies nat 1 demo_world demo_fan [11; 12] true).
  reflexivity.
Defined.

Lemma set_state_no_suppression_witness :
  heap demo_world !! 1 = Some demo_fan /\
  FanState.state_ demo_fan = false /\
  set_state 1 false demo_world =
    Some (tt, mkWorld (<[1 := FanState.with_state false demo_fan]>
                         (heap demo_world))
                (trace demo_world ++ EvSetState 1 false
                   :: notifications 1 (FanState.with_state false demo_fan))) /\
  FanState.state_ (FanState.with_state false demo_fan) = false /\
  observer_calls (notifications (T := nat) 1
                    (FanState.with_state false demo_fan)) =
    map (pair 1) [7; 9].
Proof.
  split; [reflexivity|]. split; [reflexivity|].
  apply (@set_state_no_suppression nat 1 demo_world demo_fan false).
  reflexivity.
Defined.

Lemma set_speed_str_recognized_or_unchanged_witness :
  heap demo_world !! 1 = Some demo_fan /\
  (exists w',
     set_speed 1 FAN_SPEED_LOW demo_world = Some (tt, w') /\
     set_speed_str 1 "low" demo_world = Some (true, w') /\
     get_speed 1 w' = Some (FAN_SPEED_LOW, w')) /\
  (exists w',
     set_speed 1 FAN_SPEED_MEDIUM demo_world = Some (tt, w') /\
     set_speed_str 1 "medium" demo_world = Some (true, w')) /\
  set_speed_str 1 "bogus" demo_world = Some (false, demo_world).
Proof.
  split; [reflexivity|].
  exact (@set_speed_str_recognized_or_unchanged nat 1 demo_world demo_fan
           "low"%string eq_refl).
Defined.

Lemma set_speed_str_unrecognized_example :
  set_speed_str 1 "MEDIUM " demo_world = Some (false, demo_world) /\
  get_speed 1 demo_world = Some (FAN_SPEED_HIGH, demo_world).
Proof. split; reflexivity. Qed.

Lemma toggle_twice_restores_state_witness :
  heap demo_world !! 1 = Some demo_fan /\
  exists b w1 w2,
    get_state 1 demo_world = Some (b, demo_world) /\
    play (unchained (Toggle (make_toggle_action 1))) 4 demo_world
      = Some (tt, w1) /\
    get_state 1 w1 = Some (negb b, w1) /\
    play (unchained (Toggle (make_toggle_action 1))) 5 w1 = Some (tt, w2) /\
    get_state 1 w2 = Some (b, w2).
Proof.
  split; [reflexivity|].
  apply (@toggle_twice_restores_state nat (make_toggle_action 1) 4 5
           demo_world demo_fan).
  reflexivity.
Defined.

Lemma TurnOn_unset_slot_keeps_attribute_witness :
  heap demo_world !! 1 = Some demo_fan /\
  (exists w',
     play (unchained
             (TurnOn (TurnOnAction.mk 1 (TemplatableValue.Constant true)
                        TemplatableValue.Unset))) 3 demo_world
       = Some (tt, w') /\
     get_state 1 w' = Some (true, w') /\
     get_speed 1 w' = Some (FAN_SPEED_HIGH, w')) /\
  (exists w',
     play (unchained
             (TurnOn (TurnOnAction.mk 1 TemplatableValue.Unset
                        (TemplatableValue.Constant FAN_SPEED_LOW)))) 3
       demo_world
       = Some (tt, w') /\
     get_state 1 w' = Some (true, w') /\
     is_oscillating 1 w' = Some (false, w')) /\
  make_turn_on_action (T := nat) 1 =
    TurnOnAction.mk 1 TemplatableValue.Unset TemplatableValue.Unset.
Proof.
  split; [reflexivity|].
  exact (@TurnOn_unset_slot_keeps_attribute nat 1
           (TemplatableValue.Constant true)
           (TemplatableValue.Constant FAN_SPEED_LOW) 3 demo_world demo_fan
           eq_refl).
Defined.

Lemma TurnOn_speed_function_gets_context_witness :
  heap demo_world !! 1 = Some demo_fan /\
  exists w' evs,
    play (unchained
            (TurnOn (TurnOnAction.set_speed_fn demo_speed_of
                       (make_turn_on_action 1)))) 2 demo_world
      = Some (tt, w') /\
    trace w' = trace demo_world ++ evs /\
    set_speed_calls evs = [(1, demo_speed_of 2)] /\
    get_speed 1 w' = Some (demo_speed_of 2, w').
Proof.
  split; [reflexivity|].
  apply (@TurnOn_speed_function_gets_context nat (make_turn_on_action 1)
           demo_speed_of 2 demo_world demo_fan).
  reflexivity.
Defined.

Lemma TurnOn_then_Toggle_witness :
  heap demo_world !! 1 = Some demo_fan /\
  exists w',
    play (mkAction
            (TurnOn (TurnOnAction.mk 1 (TemplatableValue.Constant true)
                       (TemplatableValue.Lambda demo_speed_of)))
            (Some (unchained (Toggle (make_toggle_action 1))))) 1 demo_world
      = Some (tt, w') /\
    get_state 1 w' = Some (false, w') /\
    is_oscillating 1 w' = Some (true, w') /\
    get_speed 1 w' = Some (FAN_SPEED_LOW, w').
Proof.
  split; [reflexivity|].
  apply (@TurnOn_then_Toggle nat
           (TurnOnAction.mk 1 (TemplatableValue.Constant true)
              (TemplatableValue.Lambda demo_speed_of))
           1 demo_world demo_fan).
  reflexivity.
Defined.

Lemma TurnOff_play_frame_witness :
  heap demo_world !! 1 = Some demo_fan /\
  play (unchained (TurnOff (make_turn_off_action 1))) 6 demo_world
    = Some (tt,
        mkWorld
          (<[1 := FanState.mk "living_room_fan" false false FAN_SPEED_HIGH
                    (FanTraits.mk true true) [7; 9]]> (heap demo_world))
          [ EvSetState 1 false;
            EvCallback 1 7 (mkSnapshot false false FAN_SPEED_HIGH);
            EvCallback 1 9 (mkSnapshot false false FAN_SPEED_HIGH);
            EvPlayNext 6 ]).
Proof.
  split; [reflexivity|].
  apply (@TurnOff_play_frame nat (make_turn_off_action 1) None 6
           demo_world demo_fan).
  reflexivity.
Defined.

Lemma TurnOn_play_order_witness :
  heap demo_world !! 1 = Some demo_fan /\
  play (unchained
          (TurnOn (TurnOnAction.mk 1 (TemplatableValue.Constant true)
                     (TemplatableValue.Lambda demo_speed_of)))) 1 demo_world
    = Some (tt,
        mkWorld
          (<[1 := FanState.mk "living_room_fan" true true FAN_SPEED_LOW
                    (FanTraits.mk true true) [7; 9]]> (heap demo_world))
          [ EvSetState 1 true;
            EvCallback 1 7 (mkSnapshot true false FAN_SPEED_HIGH);
            EvCallback 1 9 (mkSnapshot true false FAN_SPEED_HIGH);
            EvSetOscillating 1 true;
            EvCallback 1 7 (mkSnapshot true true FAN_SPEED_HIGH);
            EvCallback 1 9 (mkSnapshot true true FAN_SPEED_HIGH);
            EvSetSpeed 1 FAN_SPEED_LOW;
            EvCallback 1 7 (mkSnapshot true true FAN_SPEED_LOW);
            EvCallback 1 9 (mkSnapshot true true FAN_SPEED_LOW);
            EvPlayNext 1 ]).
Proof.
  split; [reflexivity|].
  apply (@TurnOn_play_order nat
           (TurnOnAction.mk 1 (TemplatableValue.Constant true)
              (TemplatableValue.Lambda demo_speed_of))
           None 1 demo_world demo_fan).
  reflexivity.
Defined.


(** ** Whole chains *)

Section ChainFacts.
Context {T : Type}.
Implicit Types (w : World T) (l : loc) (fs : FanState.t) (x : T).
Implicit Types (nd : Node T) (a : Action T).

(** Induction along the [next_] references of a chain. *)
Lemma Action_chain_ind (P : Action T -> Prop) :
  (forall nd, P (mkAction nd None)) ->
  (forall nd a, P a -> P (mkAction nd (Some a))) ->
  forall a, P a.
Proof.
  intros Hlast Hnext. fix IH 1.
  intros [nd [a|]]; [apply Hnext, IH | apply Hlast].
Qed.

Lemma set_state_calls_app (evs1 evs2 : list (Event T)) :
  set_state_calls (evs1 ++ evs2) = set_state_calls evs1 ++ set_state_calls evs2.
Proof. apply omap_app. Qed.

Lemma set_oscillating_calls_app (evs1 evs2 : list (Event T)) :
  set_oscillating_calls (evs1 ++ evs2) =
    set_oscillating_calls evs1 ++ set_oscillating_calls evs2.
Proof. apply omap_app. Qed.

Lemma set_state_calls_notifications l fs :
  set_state_calls (notifications (T := T) l fs) = [].
Proof.
  unfold notifications.
  induction (FanState.state_callback_ fs) as [|cb rest IH];
    [reflexivity | exact IH].
Qed.

Lemma set_oscillating_calls_notifications l fs :
  set_oscillating_calls (notifications (T := T) l fs) = [].
Proof.
  unfold notifications.
  induction (FanState.state_callback_ fs) as [|cb rest IH];
    [reflexivity | exact IH].
Qed.

(** Reads the calls of every kind off a trace built from setter events,
    notifications and hand-overs. *)
Ltac read_trace :=
  repeat first
    [ rewrite (omap_app (A := Event T))
    | rewrite set_state_calls_app | rewrite set_oscillating_calls_app
    | rewrite (set_speed_calls_app (T := T))
    | rewrite (play_next_calls_app (T := T))
    | rewrite set_state_calls_notifications
    | rewrite set_oscillating_calls_notifications
    | rewrite (set_speed_calls_notifications (T := T))
    | rewrite (play_next_calls_notifications (T := T))
    | rewrite (observer_calls_notifications (T := T))
    | progress simpl ];
  try reflexivity.

(** One node of a chain, up to the hand-over to its successor: what it
    does is the same whatever the successor is. *)
Lemma play_node_run nd x w fs :
  heap w !! node_target nd = Some fs ->
  exists evs,
    (forall n,
       play (mkAction nd n) x w =
         enter_next n x
           (mkWorld (<[node_target nd := node_effect nd x fs]> (heap w))
              (trace w ++ evs ++ [EvPlayNext x]))) /\
    play_next_calls evs = [] /\
    set_state_calls evs = [(node_target nd, node_power nd (FanState.state_ fs))].
Proof.
  intros H. destruct nd as [a|t|t].
  - simpl node_target in *. simpl node_effect. simpl node_power.
    set (l := TurnOnAction.state_ a) in *.
    set (fs1 := FanState.with_state true fs).
    set (fs2 := if TemplatableValue.has_value (TurnOnAction.oscillating_ a)
                then FanState.with_oscillating
                       (slot_result (TurnOnAction.oscillating_ a) x
                          (FanState.oscillating_ fs)) fs1
                else fs1).
    set (fs3 := if TemplatableValue.has_value (TurnOnAction.speed_ a)
                then FanState.with_speed
                       (slot_result (TurnOnAction.speed_ a) x
                          (FanState.speed_ fs)) fs2
                else fs2).
    exists ([EvSetState l true] ++ notifications l fs1
            ++ (if TemplatableValue.has_value (TurnOnAction.oscillating_ a)
                then EvSetOscillating l (FanState.oscillating_ fs2)
                       :: notifications l fs2
                else [])
            ++ (if TemplatableValue.has_value (TurnOnAction.speed_ a)
                then EvSetSpeed l (FanState.speed_ fs3) :: notifications l fs3
                else [])).
    split; [intros n; rewrite (@play_TurnOn_run T a n x w fs H)|];
      subst l fs1 fs2 fs3;
      destruct a as [l [|o|fo] [|s|fsp]]; simpl;
      [ rewrite <- ?app_assoc; simpl; rewrite <- ?app_assoc; reflexivity ..
      | | | | | | | | | ];
      (split; read_trace).
  - exists (EvSetState (TurnOffAction.state_ t) false
            :: notifications (TurnOffAction.state_ t)
                 (FanState.with_state false fs)).
    split; [intros n; rewrite (@play_TurnOff_run T t n x w fs H); reflexivity|].
    split; read_trace.
  - exists (EvSetState (ToggleAction.state_ t) (negb (FanState.state_ fs))
            :: notifications (ToggleAction.state_ t)
                 (FanState.with_state (negb (FanState.state_ fs)) fs)).
    split; [intros n; rewrite (@play_Toggle_run T t n x w fs H); reflexivity|].
    split; read_trace.
Qed.

(** What a node does to the object it is bound to. *)
Lemma node_effect_facts nd x fs :
  FanState.name_ (node_effect nd x fs) = FanState.name_ fs /\
  FanState.traits_ (node_effect nd x fs) = FanState.traits_ fs /\
  FanState.state_callback_ (node_effect nd x fs) = FanState.state_callback_ fs /\
  FanState.state_ (node_effect nd x fs) = node_power nd (FanState.state_ fs) /\
  (match nd with TurnOn _ => false | _ => true end = true ->
   FanState.oscillating_ (node_effect nd x fs) = FanState.oscillating_ fs /\
   FanState.speed_ (node_effect nd x fs) = FanState.speed_ fs).
Proof. destruct nd; simpl; repeat split; try reflexivity; discriminate. Qed.

(** Overwriting an object keeps a chain bound. *)
Lemma chain_bound_insert (h : gmap loc FanState.t) l fs fs' a :
  h !! l = Some fs ->
  chain_bound h a = true -> chain_bound (<[l := fs']> h) a = true.
Proof.
  intros Hl. unfold chain_bound. rewrite !forallb_forall.
  intros Hb nd Hin. specialize (Hb nd Hin).
  destruct (decide (l = node_target nd)) as [<-|Hne].
  - now rewrite lookup_insert_eq.
  - now rewrite lookup_insert_ne.
Qed.

(** A whole chain, played on a world that holds every fan it is bound to:
    the run has a result; the trace grows by the events [evs]; every node
    hands over the same context once and calls [set_state] once, on its
    own fan, in chain order; and every object keeps its name, traits and
    observers, with its power decided by the nodes bound to it. *)
Lemma play_chain_run a :
  forall x w,
    chain_bound (heap w) a = true ->
    exists w' evs,
      play a x w = Some (tt, w') /\
      trace w' = trace w ++ evs /\
      play_next_calls evs = replicate (length (chain_nodes a)) x /\
      map fst (set_state_calls evs) = map node_target (chain_nodes a) /\
      forall l,
        match heap w !! l with
        | Some fs =>
            exists fs',
              heap w' !! l = Some fs' /\
              FanState.name_ fs' = FanState.name_ fs /\
              FanState.traits_ fs' = FanState.traits_ fs /\
              FanState.state_callback_ fs' = FanState.state_callback_ fs /\
              FanState.state_ fs' =
                power_after l (chain_nodes a) (FanState.state_ fs) /\
              (chain_targets a l = false -> fs' = fs) /\
              (chain_without_TurnOn a = true ->
               FanState.oscillating_ fs' = FanState.oscillating_ fs /\
               FanState.speed_ fs' = FanState.speed_ fs)
        | None => heap w' !! l = None
        end.
Proof.
  induction a as [nd|nd a IH] using Action_chain_ind; intros x w Hb.
  - (* the last node *)
    unfold chain_bound in Hb. simpl in Hb.
    destruct (heap w !! node_target nd) as [fs|] eqn:Hfs; [|discriminate].
    destruct (play_node_run nd x w Hfs) as (evs & E & Hn & Hs).
    eexists _, (evs ++ [EvPlayNext x]).
    split; [exact (E None)|]. split; [reflexivity|].
    split; [rewrite play_next_calls_app, Hn; reflexivity|].
    split; [rewrite set_state_calls_app, Hs; reflexivity|].
    intros l. simpl heap.
    destruct (node_effect_facts nd x fs) as (Fn & Ft & Fc & Fp & Fo).
    destruct (decide (node_target nd = l)) as [<-|Hne].
    + rewrite Hfs, lookup_insert_eq. eexists. split; [reflexivity|].
      unfold power_after, chain_targets, chain_without_TurnOn. simpl.
      rewrite Nat.eqb_refl, andb_true_r.
      repeat split; try assumption; try discriminate; now apply Fo.
    + rewrite lookup_insert_ne by exact Hne.
      destruct (heap w !! l) as [fs0|]; [|reflexivity].
      exists fs0. unfold power_after. simpl.
      apply Nat.eqb_neq in Hne. rewrite Hne. repeat split; reflexivity.
  - (* a node with a successor *)
    unfold chain_bound in Hb. simpl in Hb. apply andb_true_iff in Hb.
    destruct Hb as [Hhd Htl].
    destruct (heap w !! node_target nd) as [fs|] eqn:Hfs; [|discriminate].
    destruct (play_node_run nd x w Hfs) as (evs & E & Hn & Hs).
    specialize (E (Some a)).
    set (w1 := mkWorld (<[node_target nd := node_effect nd x fs]> (heap w))
                 (trace w ++ evs ++ [EvPlayNext x])) in *.
    destruct (IH x w1) as (w' & evs' & E' & Htr & Hn' & Hs' & Hh').
    { simpl. eapply chain_bound_insert; [exact Hfs | exact Htl]. }
    exists w', (evs ++ [EvPlayNext x] ++ evs').
    split; [rewrite E; exact E'|].
    split; [rewrite Htr; simpl; now rewrite <- !app_assoc|].
    split; [rewrite !play_next_calls_app, Hn, Hn'; reflexivity|].
    split; [rewrite !set_state_calls_app, map_app, Hs, map_app, Hs';
            reflexivity|].
    intros l. specialize (Hh' l). simpl heap in Hh'.
    destruct (node_effect_facts nd x fs) as (Fn & Ft & Fc & Fp & Fo).
    unfold power_after, chain_targets, chain_without_TurnOn. simpl.
    destruct (decide (node_target nd = l)) as [<-|Hne].
    + rewrite Hfs. rewrite lookup_insert_eq in Hh'.
      destruct Hh' as (fs' & L & Gn & Gt & Gc & Gp & _ & Go).
      exists fs'. rewrite Nat.eqb_refl.
      split; [exact L|].
      split; [congruence|]. split; [congruence|]. split; [congruence|].
      split; [rewrite Gp, Fp; reflexivity|].
      split; [discriminate|].
      intros Hw. apply andb_true_iff in Hw. destruct Hw as [Hw1 Hw2].
      destruct (Fo Hw1) as [Fo1 Fo2]. destruct (Go Hw2) as [Go1 Go2].
      split; congruence.
    + rewrite lookup_insert_ne in Hh' by exact Hne.
      destruct (heap w !! l) as [fs0|]; [|exact Hh'].
      destruct Hh' as (fs' & L & Gn & Gt & Gc & Gp & Gu & Go).
      exists fs'. apply Nat.eqb_neq in Hne. rewrite Hne. simpl.
      repeat split; try assumption.
      * apply Go. apply andb_true_iff in H. apply H.
      * apply Go. apply andb_true_iff in H. apply H.
Qed.
End ChainFacts.

(** ** Properties of whole chains *)

Section ChainProperties.
Context {T : Type}.
Implicit Types (w : World T) (l : loc) (fs : FanState.t) (x : T).
Implicit Types (nd : Node T) (a : Action T).

(** A node bound to an address that holds no fan has no result, whatever
    follows it. *)
Lemma play_node_unbound nd n x w :
  heap w !! node_target nd = None -> play (mkAction nd n) x w = None.
Proof.
  intros H. destruct nd as [t|t|t]; simpl in *;
    unfold TurnOnAction_play, TurnOffAction_play, ToggleAction_play,
      set_state, get_state, bind, emit, load; simpl; now rewrite H.
Qed.

(** X1: playing a chain whose fans all exist returns, and hands the
    context it was given to every node of the chain, unchanged: the trace
    grows by as many [play_next(x)] as the chain has nodes, all with the
    same [x]. *)
Theorem chain_forwards_context a x w :
  chain_bound (heap w) a = true ->
  exists w' evs,
    play a x w = Some (tt, w') /\
    trace w' = trace w ++ evs /\
    play_next_calls evs = replicate (length (chain_nodes a)) x.
Proof.
  intros Hb. destruct (play_chain_run a x w Hb) as (w' & evs & E & Ht & Hn & _).
  now exists w', evs.
Qed.

(** X2: playing a chain calls [set_state] exactly once per node, on the
    fan that node is bound to, in chain order. *)
Theorem chain_set_state_once_per_node a x w :
  chain_bound (heap w) a = true ->
  exists w' evs,
    play a x w = Some (tt, w') /\
    trace w' = trace w ++ evs /\
    map fst (set_state_calls evs) = map node_target (chain_nodes a).
Proof.
  intros Hb.
  destruct (play_chain_run a x w Hb) as (w' & evs & E & Ht & _ & Hs & _).
  now exists w', evs.
Qed.

(** X3: no chain changes the name, the traits descriptor or the registered
    observers of a fan. *)
Theorem chain_keeps_name_traits_observers a x w l fs :
  chain_bound (heap w) a = true ->
  heap w !! l = Some fs ->
  exists w' fs',
    play a x w = Some (tt, w') /\
    heap w' !! l = Some fs' /\
    FanState.name_ fs' = FanState.name_ fs /\
    FanState.traits_ fs' = FanState.traits_ fs /\
    FanState.state_callback_ fs' = FanState.state_callback_ fs.
Proof.
  intros Hb Hl.
  destruct (play_chain_run a x w Hb) as (w' & evs & E & _ & _ & _ & Hh).
  specialize (Hh l). rewrite Hl in Hh.
  destruct Hh as (fs' & L & Gn & Gt & Gc & _).
  now exists w', fs'.
Qed.

(** X4: a chain leaves alone every address none of its nodes is bound to:
    a fan there is unchanged, and no fan appears where there was none. *)
Theorem chain_other_fans_untouched a x w l :
  chain_bound (heap w) a = true ->
  chain_targets a l = false ->
  exists w', play a x w = Some (tt, w') /\ heap w' !! l = heap w !! l.
Proof.
  intros Hb Hl.
  destruct (play_chain_run a x w Hb) as (w' & evs & E & _ & _ & _ & Hh).
  specialize (Hh l). exists w'. split; [exact E|].
  destruct (heap w !! l) as [fs|]; [|exact Hh].
  destruct Hh as (fs' & L & _ & _ & _ & _ & Gu & _).
  rewrite L. now rewrite (Gu Hl).
Qed.

(** X5: after a chain, the power of a fan is what the nodes bound to it
    make of it in chain order: a TurnOn sets it, a TurnOff clears it, a
    Toggle negates it; nodes bound to other fans do not count. *)
Theorem chain_power a x w l fs :
  chain_bound (heap w) a = true ->
  heap w !! l = Some fs ->
  exists w',
    play a x w = Some (tt, w') /\
    get_state l w' =
      Some (power_after l (chain_nodes a) (FanState.state_ fs), w').
Proof.
  intros Hb Hl.
  destruct (play_chain_run a x w Hb) as (w' & evs & E & _ & _ & _ & Hh).
  specialize (Hh l). rewrite Hl in Hh.
  destruct Hh as (fs' & L & _ & _ & _ & Gp & _).
  exists w'. split; [exact E|].
  erewrite get_state_run by exact L. now rewrite Gp.
Qed.

(** X6: a chain made of TurnOff and Toggle nodes only never changes the
    oscillation or the speed of any fan. *)
Theorem chain_without_TurnOn_keeps_oscillation_speed a x w l fs :
  chain_bound (heap w) a = true ->
  chain_without_TurnOn a = true ->
  heap w !! l = Some fs ->
  exists w',
    play a x w = Some (tt, w') /\
    is_oscillating l w' = Some (FanState.oscillating_ fs, w') /\
    get_speed l w' = Some (FanState.speed_ fs, w').
Proof.
  intros Hb Hw Hl.
  destruct (play_chain_run a x w Hb) as (w' & evs & E & _ & _ & _ & Hh).
  specialize (Hh l). rewrite Hl in Hh.
  destruct Hh as (fs' & L & _ & _ & _ & _ & _ & Go).
  destruct (Go Hw) as [Go1 Go2].
  exists w'. split; [exact E|]. split.
  - erewrite is_oscillating_run by exact L. now rewrite Go1.
  - erewrite get_speed_run by exact L. now rewrite Go2.
Qed.

(** X7: playing a chain is playing its head node alone and then the rest
    of the chain, with the same context: linking nodes adds nothing but
    the order. *)
Theorem play_chain_is_sequence nd a x w :
  play (mkAction nd (Some a)) x w = (play (unchained nd) x ;; play a x) w.
Proof.
  destruct (heap w !! node_target nd) as [fs|] eqn:Hfs.
  - destruct (play_node_run nd x w Hfs) as (evs & E & _).
    unfold unchained. erewrite bind_run by exact (E None).
    exact (E (Some a)).
  - unfold unchained, bind at 1.
    now rewrite !play_node_unbound by exact Hfs.
Qed.
End ChainProperties.

(** ** Properties of single nodes *)

(** Reads the calls of every kind off a trace built from setter events,
    notifications and hand-overs. *)
Ltac read_events :=
  repeat first
    [ rewrite set_state_calls_app | rewrite set_oscillating_calls_app
    | rewrite set_speed_calls_app | rewrite play_next_calls_app
    | rewrite set_state_calls_notifications
    | rewrite set_oscillating_calls_notifications
    | rewrite set_speed_calls_notifications
    | rewrite play_next_calls_notifications
    | progress simpl ];
  try reflexivity.

Section NodeProperties.
Context {T : Type}.
Implicit Types (w : World T) (l : loc) (fs : FanState.t) (x : T).
Implicit Types (nd : Node T) (a : Action T).



(** X8: for every starting state and every context value [x], a
    [ToggleAction] negates the power of its fan, notifying each observer
    once, and then hands [x] over to the next action, once; oscillation,
    speed and traits of the fan are what they were. *)
Theorem Toggle_play_frame (t : ToggleAction.t) n x w fs :
  heap w !! ToggleAction.state_ t = Some fs ->
  let l := ToggleAction.state_ t in
  let fs' := FanState.with_state (negb (FanState.state_ fs)) fs in
  let evs := EvSetState l (negb (FanState.state_ fs))
               :: notifications l fs' ++ [EvPlayNext x] in
  let w1 := mkWorld (<[l := fs']> (heap w)) (trace w ++ evs) in
  play (mkAction (Toggle t) n) x w = enter_next n x w1 /\
  get_state l w1 = Some (negb (FanState.state_ fs), w1) /\
  is_oscillating l w1 = Some (FanState.oscillating_ fs, w1) /\
  get_speed l w1 = Some (FanState.speed_ fs, w1) /\
  get_traits l w1 = Some (FanState.traits_ fs, w1) /\
  observer_calls evs = map (pair l) (FanState.state_callback_ fs) /\
  play_next_calls evs = [x].
Proof.
  intros H l fs' evs w1.
  split; [exact (@play_Toggle_run T t n x w fs H)|].
  assert (H1 : heap w1 !! l = Some fs') by apply lookup_insert_eq.
  split; [exact (get_state_run _ _ H1)|].
  split; [exact (is_oscillating_run _ _ H1)|].
  split; [exact (get_speed_run _ _ H1)|].
  split; [exact (get_traits_run _ _ H1)|].
  subst evs. split; [|read_events].
  unfold observer_calls. simpl. rewrite omap_app. simpl.
  rewrite app_nil_r. exact (observer_calls_notifications l fs').
Qed.

(** X9: for every context value [x] and every function [f], a
    [TurnOnAction] whose oscillation slot was configured with [f] calls
    [set_oscillating] exactly once when it is played with [x], with the
    argument [f x], and [is_oscillating()] is [f x] afterwards. *)
Theorem TurnOn_oscillating_function_gets_context (a : TurnOnAction.t T)
    (f : T -> bool) x w fs :
  heap w !! TurnOnAction.state_ a = Some fs ->
  exists w' evs,
    play (unchained (TurnOn (TurnOnAction.set_oscillating_fn f a))) x w
      = Some (tt, w') /\
    trace w' = trace w ++ evs /\
    set_oscillating_calls evs = [(TurnOnAction.state_ a, f x)] /\
    is_oscillating (TurnOnAction.state_ a) w' = Some (f x, w').
Proof.
  intros H. unfold unchained.
  rewrite (@play_TurnOn_run T (TurnOnAction.set_oscillating_fn f a) None x w fs H).
  destruct a as [l osc [|s|fsp]]; simpl in *;
    (eexists _, _; split; [reflexivity|]; split; [reflexivity|];
     split; [read_events|];
     erewrite is_oscillating_run by (simpl; apply lookup_insert_eq);
     reflexivity).
Qed.

(** X10: a slot of a [TurnOnAction] holds what it was configured with
    last.  After [set_oscillating(o)] and [set_speed(s)] with constants,
    whatever functions the slots held before are not consulted: for every
    context, playing the action calls [set_oscillating(o)] and
    [set_speed(s)] once each and leaves the fan on, with these values. *)
Theorem TurnOn_last_configuration_wins (a : TurnOnAction.t T)
    (g : T -> bool) (f : T -> FanSpeed) (o : bool) (s : FanSpeed) x w fs :
  heap w !! TurnOnAction.state_ a = Some fs ->
  let l := TurnOnAction.state_ a in
  let a' :=
    TurnOnAction.set_speed s
      (TurnOnAction.set_oscillating o
         (TurnOnAction.set_speed_fn f
            (TurnOnAction.set_oscillating_fn g a))) in
  exists w' evs,
    play (unchained (TurnOn a')) x w = Some (tt, w') /\
    trace w' = trace w ++ evs /\
    set_state_calls evs = [(l, true)] /\
    set_oscillating_calls evs = [(l, o)] /\
    set_speed_calls evs = [(l, s)] /\
    get_state l w' = Some (true, w') /\
    is_oscillating l w' = Some (o, w') /\
    get_speed l w' = Some (s, w').
Proof.
  intros H l a'. subst l a'. unfold unchained.
  rewrite (@play_TurnOn_run T
             (TurnOnAction.set_speed s
                (TurnOnAction.set_oscillating o
                   (TurnOnAction.set_speed_fn f
                      (TurnOnAction.set_oscillating_fn g a)))) None x w fs H).
  destruct a as [l osc sp]; simpl in *.
  eexists _, _. split; [reflexivity|]. split; [reflexivity|].
  split; [read_events|]. split; [read_events|]. split; [read_events|].
  split; [|split].
  - erewrite get_state_run by (simpl; apply lookup_insert_eq). reflexivity.
  - erewrite is_oscillating_run by (simpl; apply lookup_insert_eq).
    reflexivity.
  - erewrite get_speed_run by (simpl; apply lookup_insert_eq). reflexivity.
Qed.



(** X13: an action fresh from [make_turn_on_action], played, calls
    [set_state(true)] and no other setter; fresh from
    [make_turn_off_action] it calls [set_state(false)]; fresh from
    [make_toggle_action] it calls [set_state] with the negated power.
    Each is bound to the fan whose factory made it, and only that fan's
    power can differ afterwards. *)
Theorem fresh_actions_only_set_power l x w fs :
  heap w !! l = Some fs ->
  (exists w' evs,
     play (unchained (TurnOn (make_turn_on_action l))) x w = Some (tt, w') /\
     trace w' = trace w ++ evs /\
     set_state_calls evs = [(l, true)] /\
     set_oscillating_calls evs = [] /\
     set_speed_calls evs = [] /\
     heap w' = <[l := FanState.with_state true fs]> (heap w)) /\
  (exists w' evs,
     play (unchained (TurnOff (make_turn_off_action l))) x w = Some (tt, w') /\
     trace w' = trace w ++ evs /\
     set_state_calls evs = [(l, false)] /\
     set_oscillating_calls evs = [] /\
     set_speed_calls evs = [] /\
     heap w' = <[l := FanState.with_state false fs]> (heap w)) /\
  (exists w' evs,
     play (unchained (Toggle (make_toggle_action l))) x w = Some (tt, w') /\
     trace w' = trace w ++ evs /\
     set_state_calls evs = [(l, negb (FanState.state_ fs))] /\
     set_oscillating_calls evs = [] /\
     set_speed_calls evs = [] /\
     heap w' =
       <[l := FanState.with_state (negb (FanState.state_ fs)) fs]> (heap w)).
Proof.
  intros H. unfold unchained. split; [|split].
  - rewrite (@play_TurnOn_run T (make_turn_on_action l) None x w fs H).
    simpl. eexists _, _. split; [reflexivity|]. split; [reflexivity|].
    repeat (split; [read_events|]). reflexivity.
  - rewrite (@play_TurnOff_run T (make_turn_off_action l) None x w fs H).
    simpl. eexists _, _. split; [reflexivity|]. split; [reflexivity|].
    repeat (split; [read_events|]). reflexivity.
  - rewrite (@play_Toggle_run T (make_toggle_action l) None x w fs H).
    simpl. eexists _, _. split; [reflexivity|]. split; [reflexivity|].
    repeat (split; [read_events|]). reflexivity.
Qed.
End NodeProperties.

(** ** The second scene, run *)

(** The chain of the scene, played with context [3]: the events. *)
Example demo_chain2_trace :
  trace <$> exec (play demo_chain 3) demo_world2
  = Some [ EvSetState 1 true;
           EvCallback 1 7 (mkSnapshot true false FAN_SPEED_HIGH);
           EvCallback 1 9 (mkSnapshot true false FAN_SPEED_HIGH);
           EvPlayNext 3;
           EvSetState 2 false;
           EvCallback 2 5 (mkSnapshot false true FAN_SPEED_LOW);
           EvPlayNext 3;
           EvSetState 1 false;
           EvCallback 1 7 (mkSnapshot false false FAN_SPEED_HIGH);
           EvCallback 1 9 (mkSnapshot false false FAN_SPEED_HIGH);
           EvPlayNext 3 ].
Proof. vm_compute. reflexivity. Qed.

Lemma chain_forwards_context_witness :
  chain_bound (heap demo_world2) demo_chain = true /\
  exists w' evs,
    play demo_chain 3 demo_world2 = Some (tt, w') /\
    trace w' = trace demo_world2 ++ evs /\
    play_next_calls evs = [3; 3; 3].
Proof.
  split; [reflexivity|].
  exact (@chain_forwards_context nat demo_chain 3 demo_world2 eq_refl).
Defined.

Lemma chain_set_state_once_per_node_witness :
  chain_bound (heap demo_world2) demo_chain = true /\
  exists w' evs,
    play demo_chain 3 demo_world2 = Some (tt, w') /\
    trace w' = trace demo_world2 ++ evs /\
    map fst (set_state_calls evs) = [1; 2; 1].
Proof.
  split; [reflexivity|].
  exact (@chain_set_state_once_per_node nat demo_chain 3 demo_world2 eq_refl).
Defined.

Lemma chain_keeps_name_traits_observers_witness :
  chain_bound (heap demo_world2) demo_chain = true /\
  heap demo_world2 !! 2 = Some demo_fan2 /\
  exists w' fs',
    play demo_chain 3 demo_world2 = Some (tt, w') /\
    heap w' !! 2 = Some fs' /\
    FanState.name_ fs' = "bedroom_fan"%string /\
    FanState.traits_ fs' = FanTraits.mk false true /\
    FanState.state_callback_ fs' = [5].
Proof.
  split; [reflexivity|]. split; [reflexivity|].
  exact (@chain_keeps_name_traits_observers nat demo_chain 3 demo_world2 2
           demo_fan2 eq_refl eq_refl).
Defined.

Lemma chain_other_fans_untouched_witness :
  chain_bound (T := nat) (heap demo_world2)
    (unchained (Toggle (make_toggle_action 1))) = true /\
  chain_targets (T := nat) (unchained (Toggle (make_toggle_action 1))) 2
    = false /\
  exists w',
    play (unchained (Toggle (make_toggle_action 1))) 3 demo_world2
      = Some (tt, w') /\
    heap w' !! 2 = heap demo_world2 !! 2.
Proof.
  split; [reflexivity|]. split; [reflexivity|].
  exact (@chain_other_fans_untouched nat
           (unchained (Toggle (make_toggle_action 1))) 3 demo_world2 2
           eq_refl eq_refl).
Defined.

Lemma chain_power_witness :
  chain_bound (heap demo_world2) demo_chain = true /\
  heap demo_world2 !! 1 = Some demo_fan /\
  exists w',
    play demo_chain 3 demo_world2 = Some (tt, w') /\
    get_state 1 w' = Some (false, w').
Proof.
  split; [reflexivity|]. split; [reflexivity|].
  exact (@chain_power nat demo_chain 3 demo_world2 1 demo_fan eq_refl eq_refl).
Defined.

Lemma chain_without_TurnOn_keeps_oscillation_speed_witness :
  chain_bound (heap demo_world2) demo_chain = true /\
  chain_without_TurnOn demo_chain = true /\
  heap demo_world2 !! 2 = Some demo_fan2 /\
  exists w',
    play demo_chain 3 demo_world2 = Some (tt, w') /\
    is_oscillating 2 w' = Some (true, w') /\
    get_speed 2 w' = Some (FAN_SPEED_LOW, w').
Proof.
  split; [reflexivity|]. split; [reflexivity|]. split; [reflexivity|].
  exact (@chain_without_TurnOn_keeps_oscillation_speed nat demo_chain 3
           demo_world2 2 demo_fan2 eq_refl eq_refl eq_refl).
Defined.

Lemma Toggle_play_frame_witness :
  heap demo_world2 !! 2 = Some demo_fan2 /\
  play (unchained (Toggle (make_toggle_action 2))) 8 demo_world2
    = Some (tt,
        mkWorld
          (<[2 := FanState.mk "bedroom_fan" false true FAN_SPEED_LOW
                    (FanTraits.mk false true) [5]]> (heap demo_world2))
          [ EvSetState 2 false;
            EvCallback 2 5 (mkSnapshot false true FAN_SPEED_LOW);
            EvPlayNext 8 ]).
Proof.
  split; [reflexivity|].
  apply (@Toggle_play_frame nat (make_toggle_action 2) None 8 demo_world2
           demo_fan2).
  reflexivity.
Defined.

Lemma TurnOn_oscillating_function_gets_context_witness :
  heap demo_world !! 1 = Some demo_fan /\
  exists w' evs,
    play (unchained
            (TurnOn (TurnOnAction.set_oscillating_fn demo_oscillating_of
                       (make_turn_on_action 1)))) 4 demo_world
      = Some (tt, w') /\
    trace w' = trace demo_world ++ evs /\
    set_oscillating_calls evs = [(1, true)] /\
    is_oscillating 1 w' = Some (true, w').
Proof.
  split; [reflexivity|].
  exact (@TurnOn_oscillating_function_gets_context nat (make_turn_on_action 1)
           demo_oscillating_of 4 demo_world demo_fan eq_refl).
Defined.

Lemma TurnOn_last_configuration_wins_witness :
  heap demo_world !! 1 = Some demo_fan /\
  exists w' evs,
    play (unchained
            (TurnOn
               (TurnOnAction.set_speed FAN_SPEED_LOW
                  (TurnOnAction.set_oscillating true
                     (TurnOnAction.set_speed_fn demo_speed_of
                        (TurnOnAction.set_oscillating_fn demo_oscillating_of
                           (make_turn_on_action 1))))))) 3 demo_world
      = Some (tt, w') /\
    trace w' = trace demo_world ++ evs /\
    set_state_calls evs = [(1, true)] /\
    set_oscillating_calls evs = [(1, true)] /\
    set_speed_calls evs = [(1, FAN_SPEED_LOW)] /\
    get_state 1 w' = Some (true, w') /\
    is_oscillating 1 w' = Some (true, w') /\
    get_speed 1 w' = Some (FAN_SPEED_LOW, w').
Proof.
  split; [reflexivity|].
  exact (@TurnOn_last_configuration_wins nat (make_turn_on_action 1)
           demo_oscillating_of demo_speed_of true FAN_SPEED_LOW 3
           demo_world demo_fan eq_refl).
Defined.



Lemma fresh_actions_only_set_power_witness :
  heap demo_world2 !! 2 = Some demo_fan2 /\
  exists w' evs,
    play (unchained (TurnOn (make_turn_on_action 2))) 1 demo_world2
      = Some (tt, w') /\
    trace w' = trace demo_world2 ++ evs /\
    set_state_calls evs = [(2, true)] /\
    set_oscillating_calls evs = [] /\
    set_speed_calls evs = [] /\
    heap w' = <[2 := FanState.with_state true demo_fan2]> (heap demo_world2).
Proof.
  split; [reflexivity|].
  apply (@fresh_actions_only_set_power nat 2 1 demo_world2 demo_fan2).
  reflexivity.
Defined.
